(** * health_check: the single-attempt evaluator and the retry loop

    A shallow embedding of [src/health_check.py].  The module has two
    functions with logic in them: [check_server_status], which performs one
    request and classifies it, and [main], which sleeps, retries and reports
    through [module.exit_json] / [module.fail_json].

    Python exceptions are modelled by an error monad [result]; the effects of
    [main] ([time.sleep], the calls of the evaluator) are recorded in a trace.
    The network and the [urllib] / [re] libraries are not part of the
    repository: what the client library and the network do with one request
    is an explicit oracle ([network]), and the library calls are modelled by
    their documented Python 3 behaviour, with the exceptions they raise inside
    and outside the [try] of [check_server_status]. *)

From Stdlib Require Import ZArith String Ascii List Bool Lia DecimalString.
From Stdlib.Strings Require Import Byte.
Import ListNotations.
Open Scope string_scope.
Open Scope Z_scope.

(** ** Python values and exceptions *)

(** [bytes], as returned by [fp.read()]. *)
Definition bytes := list byte.

(** The exceptions that appear on the paths of the module.  [URLError],
    [HTTPError], the two socket errors and [RemoteDisconnected] (a
    [ConnectionResetError]) are instances of the classes named in the
    [except] clause of [check_server_status]; the others are not:
    [BadStatusLine] and [IncompleteRead] are [http.client.HTTPException]s. *)
Inductive exn : Type :=
| URLError (reason : string)
| HTTPError (code : Z) (msg : string)
| socket_error (errno : Z) (strerror : string)
| socket_timeout
| RemoteDisconnected
| BadStatusLine (line : string)
| IncompleteRead (got : Z) (expected : option Z)
| TypeError (msg : string)
| ValueError (msg : string)
| re_error (msg : string)
| UnboundLocalError (name : string).

(** ['%d' % n] for a Python [int]. *)
Definition fmt_d (n : Z) : string := NilZero.string_of_int (Z.to_int n).

(** [str(e)].  The handler of [check_server_status] applies it to the
    exceptions it catches; for [UnboundLocalError] the wording is that of
    Python up to 3.10. *)
Definition str (e : exn) : string :=
  match e with
  | URLError reason => "<urlopen error " ++ reason ++ ">"
  | HTTPError code msg => "HTTP Error " ++ fmt_d code ++ ": " ++ msg
  | socket_error errno strerror => "[Errno " ++ fmt_d errno ++ "] " ++ strerror
  | socket_timeout => "timed out"
  | RemoteDisconnected => "Remote end closed connection without response"
  | BadStatusLine line => line
  | IncompleteRead got expected =>
      "IncompleteRead(" ++ fmt_d got ++ " bytes read"
        ++ match expected with
           | Some more => ", " ++ fmt_d more ++ " more expected"
           | None => ""
           end ++ ")"
  | TypeError msg => msg
  | ValueError msg => msg
  | re_error msg => msg
  | UnboundLocalError name =>
      "local variable '" ++ name ++ "' referenced before assignment"
  end.

(** [isinstance(e, (URLError, HTTPError, socket.error))]. *)
Definition is_caught (e : exn) : bool :=
  match e with
  | URLError _ | HTTPError _ _ | socket_error _ _ | socket_timeout
  | RemoteDisconnected => true
  | BadStatusLine _ | IncompleteRead _ _
  | TypeError _ | ValueError _ | re_error _ | UnboundLocalError _ => false
  end.

(** Computations that return or raise. *)
Inductive result (A : Type) : Type :=
| Return (a : A)
| Raise (e : exn).
Arguments Return {A} a.
Arguments Raise {A} e.

Definition bind {A B : Type} (m : result A) (k : A -> result B) : result B :=
  match m with
  | Return a => k a
  | Raise e => Raise e
  end.

Notation "x <- m ;; k" := (bind m (fun x => k))
  (at level 61, m at next level, right associativity).

(** ** The network and [urllib.request] *)

Definition headers_t := list (string * string).

Record Request : Type := mkRequest {
  req_url : string;
  req_headers : headers_t
}.

(** What the network does with one request: either no HTTP response is
    obtained at all, or the server's final response arrives. *)
Inductive fault : Type :=
| Unreachable (reason : string)       (* DNS, refused, TLS: raised while sending *)
| SocketFailed (errno : Z) (strerror : string)  (* reset while receiving *)
| TimedOut                            (* no response within the timeout *)
| Disconnected.                       (* closed without sending a response *)

(** How the transfer of a body breaks off after the status line and the
    headers have arrived. *)
Inductive body_fault : Type :=
| Truncated (got : Z) (expected : option Z)   (* fewer bytes than announced *)
| Stalled.                                    (* no more bytes within the timeout *)

(** What happens to one request.
    - [Refused]: the client library rejects the arguments before anything is
      sent ([ValueError]: a URL without a scheme given to [Request], a
      negative timeout);
    - [NoResponse]: a transport fault, no response is obtained;
    - [Malformed]: what arrives is not an HTTP status line;
    - [Response]: the final response arrives with its whole body;
    - [Interrupted]: status line and headers arrive, the body does not
      arrive completely. *)
Inductive reply : Type :=
| Refused (msg : string)
| NoResponse (f : fault)
| Malformed (line : string)
| Response (status : Z) (reason : string) (body : bytes)
| Interrupted (status : Z) (reason : string) (b : body_fault).

(** The client library and the network seen by one call: request and
    timeout to reply. *)
Definition network := Request -> Z -> reply.

(** The object [urlopen] returns: its status and what [read()] does. *)
Record http_response : Type := mkFp {
  fp_code : Z;
  fp_body : result bytes
}.

Definition getcode (fp : http_response) : Z := fp_code fp.
Definition read (fp : http_response) : result bytes := fp_body fp.

Definition exn_of_fault (f : fault) : exn :=
  match f with
  | Unreachable reason => URLError reason
  | SocketFailed errno strerror => socket_error errno strerror
  | TimedOut => socket_timeout
  | Disconnected => RemoteDisconnected
  end.

Definition exn_of_body_fault (b : body_fault) : exn :=
  match b with
  | Truncated got expected => IncompleteRead got expected
  | Stalled => socket_timeout
  end.

(** [Request(url, headers=headers)] followed by
    [urlopen(request, timeout=timeout)] with the default opener.  A
    [ValueError] of either call is raised here: neither is caught, so it
    leaves [check_server_status] from line 99 as from line 101.  A fault is
    raised as [URLError] or a socket error, a malformed reply as
    [BadStatusLine]; a response whose status is not in 200..299 is raised as
    [HTTPError] by the default error handler, its body unread; only a 2xx
    response is returned, and its body is read later. *)
Definition urlopen (net : network) (request : Request) (timeout : Z)
  : result http_response :=
  match net request timeout with
  | Refused msg => Raise (ValueError msg)
  | NoResponse f => Raise (exn_of_fault f)
  | Malformed line => Raise (BadStatusLine line)
  | Response status reason body =>
      if (200 <=? status) && (status <? 300)
      then Return (mkFp status (Return body))
      else Raise (HTTPError status reason)
  | Interrupted status reason b =>
      if (200 <=? status) && (status <? 300)
      then Return (mkFp status (Raise (exn_of_body_fault b)))
      else Raise (HTTPError status reason)
  end.

(** ** [re.match] *)

(** A regular expression given to [re.match]: Python accepts a [str] or a
    [bytes] pattern.  The module parameter [expected_regexp] is a [str]. *)
Inductive pattern_t : Type :=
| PStr (s : string)
| PBytes (b : bytes).

Section Evaluator.

(** The message of the [re.error] that compiling the pattern raises, if it
    raises one, and whether a compiled [bytes] pattern matches at the start
    of a [bytes] subject.  The syntax and the matching of Python's regular
    expressions are outside the repository. *)
Variable re_compile_error : pattern_t -> option string.
Variable re_matches_at_start : bytes -> bytes -> bool.

(** [re.match(pattern, content)] on the [bytes] that [fp.read()] returns: a
    match object or [None] ([option unit] here).  A pattern that does not
    compile raises [re.error]; a compiled [str] pattern refuses a [bytes]
    subject with [TypeError]. *)
Definition re_match (pattern : pattern_t) (content : bytes)
  : result (option unit) :=
  match re_compile_error pattern with
  | Some msg => Raise (re_error msg)
  | None =>
      match pattern with
      | PStr _ =>
          Raise (TypeError "cannot use a string pattern on a bytes-like object")
      | PBytes b =>
          Return (if re_matches_at_start b content then Some tt else None)
      end
  end.

(** Truth value of an optional pattern: [None], [''] and [b''] are false. *)
Definition truthy (expected_regexp : option pattern_t) : bool :=
  match expected_regexp with
  | None => false
  | Some (PStr s) => negb (String.length s =? 0)%nat
  | Some (PBytes b) => negb (List.length b =? 0)%nat
  end.

Definition is_none {A : Type} (o : option A) : bool :=
  match o with None => true | Some _ => false end.

(** [expected_regexp and not re.match(expected_regexp, content)]: the
    conjunction evaluates its right operand only when the left one is true. *)
Definition regexp_rejects (expected_regexp : option pattern_t)
    (content : bytes) : result bool :=
  match expected_regexp with
  | None => Return false
  | Some pattern =>
      if truthy (Some pattern)
      then m <- re_match pattern content ;; Return (is_none m)
      else Return false
  end.

(** ** [check_server_status]

    Only [urlopen] stands inside the [try]: what [fp.read()] or [re.match]
    raise leaves the function, also when it is an exception of a class that
    the [except] clause names. *)

Definition check_server_status (net : network)
    (url : string) (headers : headers_t) (timeout : Z)
    (expected_status : Z) (expected_regexp : option pattern_t)
  : result (bool * string) :=
  let request := mkRequest url headers in
  match urlopen net request timeout with
  | Raise e =>
      if is_caught e then Return (false, str e) else Raise e
  | Return fp =>
      if negb (getcode fp =? expected_status)
      then Return (false, "Expected status " ++ fmt_d expected_status
                            ++ ", actual: " ++ fmt_d (getcode fp))
      else
        content <- read fp ;;
        rejected <- regexp_rejects expected_regexp content ;;
        if rejected
        then Return (false, "Content did not match expected regexp.")
        else Return (true, "OK")
  end.

End Evaluator.

(** ** [main] *)

(** [module.params] after [AnsibleModule] has applied types and defaults. *)
Record params : Type := mkParams {
  url : string;
  headers : option headers_t;
  initial_delay : Z;
  delay_between_tries : Z;
  max_retries : Z;
  timeout : Z;
  expected_status : Z;
  expected_regexp : option string
}.

(** What a run does that can be observed from outside. *)
Inductive event : Type :=
| Sleep (secs : Z)          (* [time.sleep(secs)] returned *)
| Call (call : nat).         (* [check_server_status] was called *)

(** How a run ends: both [module.exit_json] and [module.fail_json] leave the
    process; an exception that nothing catches ends it too. *)
Inductive exit : Type :=
| exit_json (failed_attempts : Z)
| fail_json (msg : string) (failed_attempts : Z)
| Uncaught (e : exn).

Record run : Type := mkRun {
  trace : list event;
  last_info : string;   (* the local [info] when the run ends *)
  outcome : exit
}.

Definition emit (ev : event) (r : run) : run :=
  mkRun (ev :: trace r) (last_info r) (outcome r).

(** [time.sleep(secs)] followed by [k]: a negative length raises. *)
Definition time_sleep (secs : Z) (info : string) (k : run) : run :=
  if secs <? 0
  then mkRun [] info (Uncaught (ValueError "sleep length must be non-negative"))
  else emit (Sleep secs) k.

(** [range(n)]. *)
Definition range (n : Z) : list Z := map Z.of_nat (seq 0 (Z.to_nat n)).

(** [x or {}]. *)
Definition or_empty (x : option headers_t) : headers_t :=
  match x with
  | None => []
  | Some h => h
  end.

Section RetryLoop.

(** The outcome of the evaluator at its n-th call (from 0), and the value
    of [delay_between_tries]. *)
Variable evaluate : nat -> result (bool * string).
Variable delay : Z.

(** The [for ... else] statement over the remaining items.  [attempt] is the
    loop variable ([None] while unbound), [info] the local of that name and
    [calls] the number of evaluator calls made so far. *)
Fixpoint for_attempt (items : list Z) (attempt : option Z) (info : string)
    (calls : nat) : run :=
  match items with
  | [] =>
      match attempt with
      | None => mkRun [] info (Uncaught (UnboundLocalError "attempt"))
      | Some a =>
          mkRun [] info (fail_json ("Maximum attempts reached: " ++ info) a)
      end
  | a :: rest =>
      let body :=
        emit (Call calls)
          match evaluate calls with
          | Raise e => mkRun [] info (Uncaught e)
          | Return (success, info') =>
              if success
              then mkRun [] info' (exit_json a)
              else for_attempt rest (Some a) info' (S calls)
          end in
      if negb (a =? 0)
      then time_sleep delay info body
      else body
  end.

(** What follows the call of attempt [c] in the loop body: the part of
    [for_attempt] after the evaluator has been called. *)
Definition after_call (c : nat) (rest : list Z) (info : string) : run :=
  match evaluate c with
  | Raise e => mkRun [] info (Uncaught e)
  | Return (success, info') =>
      if success
      then mkRun [] info' (exit_json (Z.of_nat c))
      else for_attempt rest (Some (Z.of_nat c)) info' (S c)
  end.

End RetryLoop.

(** [main] with the evaluator as a parameter. *)
Definition main_with (evaluate : nat -> result (bool * string)) (p : params)
  : run :=
  time_sleep (initial_delay p) ""
    (for_attempt evaluate (delay_between_tries p)
       (range (max_retries p)) None "" 0).

(** The call of [check_server_status] in [main], when it is the n-th call
    of the run (from 0) and so meets the network [world n]. *)
Definition nth_check (re_compile_error : pattern_t -> option string)
    (re_matches_at_start : bytes -> bytes -> bool)
    (world : nat -> network) (p : params) (n : nat) : result (bool * string) :=
  check_server_status re_compile_error re_matches_at_start (world n)
    (url p) (or_empty (headers p)) (timeout p)
    (expected_status p) (option_map PStr (expected_regexp p)).

(** [main]. *)
Definition main (re_compile_error : pattern_t -> option string)
    (re_matches_at_start : bytes -> bytes -> bool)
    (world : nat -> network) (p : params) : run :=
  main_with (nth_check re_compile_error re_matches_at_start world p) p.

(** ** The result of a run in the terms of the specification *)

Record CheckResult : Type := mkCheckResult {
  succeeded : bool;
  attemptsMade : nat;
  lastDetail : string
}.

Definition is_call (ev : event) : bool :=
  match ev with Call _ => true | Sleep _ => false end.

(** The number of evaluator calls of a run. *)
Definition calls_made (r : run) : nat := List.length (filter is_call (trace r)).

(** The [CheckResult] that a run hands over: none when it ends in an
    exception. *)
Definition CheckResult_of (r : run) : option CheckResult :=
  match outcome r with
  | exit_json _ => Some (mkCheckResult true (calls_made r) (last_info r))
  | fail_json _ _ => Some (mkCheckResult false (calls_made r) (last_info r))
  | Uncaught _ => None
  end.

(** The delays of a validated configuration are not negative. *)
Definition valid_delays (p : params) : Prop :=
  0 <= initial_delay p /\ 0 <= delay_between_tries p.

(** The order of sleeps and calls that the specification describes for a run
    with [m] evaluator calls. *)
Fixpoint later_attempts (delay : Z) (call : nat) (m : nat) : list event :=
  match m with
  | O => []
  | S m' => Sleep delay :: Call call :: later_attempts delay (S call) m'
  end.

Definition schedule (initial delay : Z) (m : nat) : list event :=
  Sleep initial ::
  match m with
  | O => []
  | S m' => Call 0 :: later_attempts delay 1 m'
  end.

(** Whether [needle] occurs in [hay]. *)
Definition mentions (needle hay : string) : bool :=
  match String.index 0 needle hay with
  | Some _ => true
  | None => false
  end.

(** The seconds a run spends in [time.sleep]. *)
Fixpoint slept (tr : list event) : Z :=
  match tr with
  | [] => 0
  | Sleep secs :: tr' => secs + slept tr'
  | Call _ :: tr' => slept tr'
  end.

(** ** Example inputs *)

(** The URL and the pattern of the second play of [EXAMPLES]. *)
Definition example_url : string := "http://127.0.0.1/api/v1/ok".
Definition example_regexp : string := "ok".

(** A regular-expression engine for the examples: every pattern compiles and
    a [bytes] pattern matches when the body starts with it literally. *)
Definition every_pattern_compiles : pattern_t -> option string := fun _ => None.

Fixpoint starts_with (pattern body : bytes) : bool :=
  match pattern, body with
  | [], _ => true
  | _ :: _, [] => false
  | x :: pattern', y :: body' => Byte.eqb x y && starts_with pattern' body'
  end.

(** A server that answers every request with the given status and body. *)
Definition answering (status : Z) (reason body : string) : network :=
  fun _ _ => Response status reason (list_byte_of_string body).

(** A network on which the first two calls are refused and later ones are
    answered with 200. *)
Definition third_call_answers (n : nat) : network :=
  if (n <? 2)%nat
  then fun _ _ => NoResponse (Unreachable "[Errno 111] Connection refused")
  else answering 200 "OK" "ok".

(** Evaluator stubs. *)
Definition always_refused (n : nat) : result (bool * string) :=
  Return (false, "connection refused").

Definition refused_then_ok (n : nat) : result (bool * string) :=
  if (n <? 2)%nat then Return (false, "connection refused")
  else Return (true, "OK").

(** Configurations: defaults of the module except where named. *)
Definition params_of (initial_delay delay_between_tries max_retries : Z)
  : params :=
  mkParams example_url None initial_delay delay_between_tries max_retries
    10 200 None.

(** A network on which no call gets a response. *)
Definition always_down (n : nat) : network :=
  fun _ _ => NoResponse (Unreachable "[Errno 111] Connection refused").

(** The second play of [EXAMPLES] with three tries. *)
Definition params_with_regexp : params :=
  mkParams example_url None 0 5 3 10 200 (Some example_regexp).

(** A check that waits for a 503. *)
Definition params_expecting_503 : params :=
  mkParams example_url None 0 5 3 10 503 None.

(** * Properties of [check_server_status] *)

Section EvaluatorFacts.

Variable re_compile_error : pattern_t -> option string.
Variable re_matches_at_start : bytes -> bytes -> bool.

Local Abbreviation check := (check_server_status re_compile_error re_matches_at_start).

(** The text of an exception that the handler catches is never ["OK"]. *)
Lemma str_caught_not_OK (e : exn) : is_caught e = true -> str e <> "OK".
Proof.
  destruct e; simpl; intros Hc; try discriminate Hc; intros Heq; discriminate Heq.
Qed.

(** [urlopen] hands back a response only when its status is 2xx. *)
Lemma urlopen_returns_2xx net request timeout fp :
  urlopen net request timeout = Return fp -> 200 <= getcode fp < 300.
Proof.
  unfold urlopen.
  destruct (net request timeout)
    as [msg | f | line | status reason body | status reason b];
    try discriminate;
    (destruct ((200 <=? status) && (status <? 300)) eqn:Hrange; [| discriminate]);
    intros H; injection H as <-; simpl;
    apply andb_true_iff in Hrange; lia.
Qed.


(** A 2xx response with another status than the expected one is reported
    with both codes. *)
Lemma status_mismatch_2xx_detail net url headers timeout expected_status
    expected_regexp status reason body :
  net (mkRequest url headers) timeout = Response status reason body ->
  200 <= status < 300 ->
  status <> expected_status ->
  check net url headers timeout expected_status expected_regexp
  = Return (false, "Expected status " ++ fmt_d expected_status
                     ++ ", actual: " ++ fmt_d status).
Proof.
  intros Hnet Hin Hne.
  unfold check_server_status, urlopen; rewrite Hnet.
  replace ((200 <=? status) && (status <? 300)) with true
    by (symmetry; apply andb_true_iff; lia).
  cbn [getcode fp_code].
  destruct (Z.eqb_spec status expected_status) as [Heq | _]; [contradiction |].
  reflexivity.
Qed.

(** With a [bytes] pattern that compiles, the body decides: the attempt
    succeeds exactly when the pattern matches at the start of the body. *)
Lemma bytes_pattern_decides net url headers timeout status reason body b0 b :
  net (mkRequest url headers) timeout = Response status reason body ->
  200 <= status < 300 ->
  re_compile_error (PBytes (b0 :: b)) = None ->
  check net url headers timeout status (Some (PBytes (b0 :: b)))
  = if re_matches_at_start (b0 :: b) body
    then Return (true, "OK")
    else Return (false, "Content did not match expected regexp.").
Proof.
  intros Hnet Hin Hc.
  unfold check_server_status, urlopen; rewrite Hnet.
  replace ((200 <=? status) && (status <? 300)) with true
    by (symmetry; apply andb_true_iff; lia).
  cbn [getcode read fp_code fp_body].
  rewrite Z.eqb_refl; cbn [negb bind].
  unfold regexp_rejects, re_match; cbn [truthy List.length Nat.eqb negb].
  rewrite Hc; cbn [bind].
  destruct (re_matches_at_start (b0 :: b) body); reflexivity.
Qed.

(** A successful attempt always carries the detail ["OK"]. *)
Lemma check_success_OK net url headers timeout expected_status
    expected_regexp detail :
  check net url headers timeout expected_status expected_regexp
  = Return (true, detail) ->
  detail = "OK".
Proof.
  unfold check_server_status.
  destruct (urlopen net _ timeout) as [fp | e].
  - destruct (negb (getcode fp =? expected_status)); [discriminate |].
    destruct (read fp) as [content | e0]; cbn [bind]; [| discriminate].
    destruct (regexp_rejects _ _ expected_regexp content) as [[|] | e'];
      cbn [bind]; try discriminate.
    intros H; injection H as <-; reflexivity.
  - destruct (is_caught e); discriminate.
Qed.

(** C9: whenever [check_server_status] returns, the outcome is a success
    exactly when its detail is ["OK"], and the detail of a failure is the
    text of the caught exception, or the status message with the expected
    and the actual code, or the fixed text of the body mismatch. *)
Theorem outcome_detail_invariant net url headers timeout expected_status
    expected_regexp success detail :
  check net url headers timeout expected_status expected_regexp
  = Return (success, detail) ->
  (success = true <-> detail = "OK") /\
  (success = false ->
     (exists e, urlopen net (mkRequest url headers) timeout = Raise e /\
                is_caught e = true /\ detail = str e) \/
     (exists fp, urlopen net (mkRequest url headers) timeout = Return fp /\
                 getcode fp <> expected_status /\
                 detail = "Expected status " ++ fmt_d expected_status
                            ++ ", actual: " ++ fmt_d (getcode fp)) \/
     detail = "Content did not match expected regexp.").
Proof.
  unfold check_server_status.
  destruct (urlopen net (mkRequest url headers) timeout) as [fp | e] eqn:Hopen.
  - destruct (Z.eqb_spec (getcode fp) expected_status) as [Heq | Hne];
      cbn [negb].
    + destruct (read fp) as [content | e0]; cbn [bind]; [| discriminate].
      destruct (regexp_rejects _ _ expected_regexp content) as [[|] | e'];
        cbn [bind]; intros H; try discriminate H;
        injection H as <- <-.
      * split; [split; discriminate |]. intros _; right; right; reflexivity.
      * split; [split; reflexivity |]. discriminate.
    + intros H; injection H as <- <-.
      split; [split; discriminate |].
      intros _; right; left. exists fp. repeat split; assumption.
  - destruct (is_caught e) eqn:Hc; intros H; [| discriminate H].
    injection H as <- <-.
    split.
    + split; [discriminate |]. intros Habs.
      exfalso; exact (str_caught_not_OK e Hc Habs).
    + intros _; left. exists e. repeat split; assumption.
Qed.

End EvaluatorFacts.

(** * Properties of the retry loop *)

Section LoopFacts.

Variable evaluate : nat -> result (bool * string).
Variable delay : Z.
Hypothesis delay_nonneg : 0 <= delay.

Lemma time_sleep_nonneg secs info k :
  0 <= secs -> time_sleep secs info k = emit (Sleep secs) k.
Proof.
  intros H; unfold time_sleep.
  destruct (Z.ltb_spec secs 0); [lia | reflexivity].
Qed.

(** One pass of the loop body at attempt [c]: an optional sleep, the call,
    and what follows it. *)
Lemma for_attempt_step c rest attempt info :
  let r := for_attempt evaluate delay (Z.of_nat c :: rest) attempt info c in
  let k := after_call evaluate delay c rest info in
  trace r = (match c with O => [] | S _ => [Sleep delay] end
               ++ Call c :: trace k)%list /\
  calls_made r = S (calls_made k) /\
  last_info r = last_info k /\
  outcome r = outcome k.
Proof.
  cbn [for_attempt]. fold (after_call evaluate delay c rest info).
  destruct c as [| c'].
  - repeat split.
  - replace (Z.of_nat (S c') =? 0) with false by (symmetry; apply Z.eqb_neq; lia).
    cbn [negb]. rewrite time_sleep_nonneg by exact delay_nonneg.
    repeat split.
Qed.

Lemma range_items c n :
  map Z.of_nat (seq c (S n)) = Z.of_nat c :: map Z.of_nat (seq (S c) n).
Proof. reflexivity. Qed.

(** From the second attempt on, every call is preceded by one sleep of
    [delay]. *)
Lemma trace_later_attempts n : forall c attempt info,
  (1 <= c)%nat ->
  let r := for_attempt evaluate delay (map Z.of_nat (seq c n)) attempt info c in
  trace r = later_attempts delay c (calls_made r).
Proof.
  induction n as [| n IH]; intros c attempt info Hc r; subst r.
  - cbn. destruct attempt; reflexivity.
  - rewrite range_items.
    destruct (for_attempt_step c (map Z.of_nat (seq (S c) n)) attempt info)
      as (Htr & Hcalls & _ & _).
    rewrite Htr, Hcalls.
    destruct c as [| c']; [lia |].
    cbn [later_attempts app]. do 2 f_equal.
    unfold after_call.
    destruct (evaluate (S c')) as [[[|] info'] | e]; try reflexivity.
    apply IH. lia.
Qed.

(** The loop makes at most one call per item. *)
Lemma calls_made_bound n : forall c attempt info,
  (calls_made (for_attempt evaluate delay (map Z.of_nat (seq c n)) attempt info c)
   <= n)%nat.
Proof.
  induction n as [| n IH]; intros c attempt info.
  - cbn. destruct attempt; cbn; lia.
  - rewrite range_items.
    destruct (for_attempt_step c (map Z.of_nat (seq (S c) n)) attempt info)
      as (_ & Hcalls & _ & _).
    rewrite Hcalls. unfold after_call.
    destruct (evaluate c) as [[[|] info'] | e]; cbn; try lia.
    specialize (IH (S c) (Some (Z.of_nat c)) info'). lia.
Qed.

(** When every remaining attempt fails, all of them are made and the loop
    reaches its [else] clause with the last detail. *)
Lemma for_attempt_all_fail (detail : nat -> string) n : forall c attempt info,
  (forall i, (c <= i < c + n)%nat -> evaluate i = Return (false, detail i)) ->
  let r := for_attempt evaluate delay (map Z.of_nat (seq c n)) attempt info c in
  calls_made r = n /\
  match n with
  | O => last_info r = info /\
         outcome r = match attempt with
                     | None => Uncaught (UnboundLocalError "attempt")
                     | Some a => fail_json ("Maximum attempts reached: " ++ info) a
                     end
  | S n' => last_info r = detail (c + n')%nat /\
            outcome r = fail_json ("Maximum attempts reached: "
                                     ++ detail (c + n')%nat)
                                  (Z.of_nat (c + n'))
  end.
Proof.
  induction n as [| n IH]; intros c attempt info Hfail r; subst r.
  - cbn. destruct attempt; repeat split.
  - rewrite range_items.
    destruct (for_attempt_step c (map Z.of_nat (seq (S c) n)) attempt info)
      as (_ & Hcalls & Hinfo & Hout).
    rewrite Hcalls, Hinfo, Hout. unfold after_call.
    rewrite (Hfail c) by lia.
    destruct (IH (S c) (Some (Z.of_nat c)) (detail c)) as [Hn Hend];
      [intros i Hi; apply Hfail; lia |].
    split; [rewrite Hn; reflexivity |].
    destruct n as [| n'].
    + replace (c + 0)%nat with c by lia. exact Hend.
    + replace (c + S n')%nat with (S c + n')%nat by lia. exact Hend.
Qed.

(** When the attempts before the [k]-th remaining one fail and that one
    succeeds, the loop leaves through [exit_json] after exactly those calls. *)
Lemma for_attempt_first_success k : forall n c attempt info detail,
  (k < n)%nat ->
  (forall i, (c <= i < c + k)%nat -> exists d, evaluate i = Return (false, d)) ->
  evaluate (c + k)%nat = Return (true, detail) ->
  let r := for_attempt evaluate delay (map Z.of_nat (seq c n)) attempt info c in
  calls_made r = S k /\ last_info r = detail /\
  outcome r = exit_json (Z.of_nat (c + k)).
Proof.
  induction k as [| k IH]; intros n c attempt info detail Hkn Hfail Hok r; subst r;
    (destruct n as [| n]; [lia |]);
    rewrite range_items;
    destruct (for_attempt_step c (map Z.of_nat (seq (S c) n)) attempt info)
      as (_ & Hcalls & Hinfo & Hout);
    rewrite Hcalls, Hinfo, Hout; unfold after_call.
  - replace (c + 0)%nat with c in * by lia. rewrite Hok.
    repeat split.
  - destruct (Hfail c) as [d Hd]; [lia |]. rewrite Hd.
    replace (c + S k)%nat with (S c + k)%nat in * by lia.
    destruct (IH n (S c) (Some (Z.of_nat c)) d detail) as (Hn & Hi & Ho);
      [lia | intros i Hi; apply Hfail; lia | exact Hok |].
    rewrite Hn, Hi, Ho. repeat split.
Qed.

End LoopFacts.

(** * Properties of [main] *)

(** With a delay that [time.sleep] accepts, a run is the initial sleep
    followed by the loop over [range(max_retries)] from call 0. *)
Lemma main_with_loop evaluate p :
  0 <= initial_delay p ->
  let r := main_with evaluate p in
  let l := for_attempt evaluate (delay_between_tries p)
             (map Z.of_nat (seq 0 (Z.to_nat (max_retries p)))) None "" 0 in
  trace r = Sleep (initial_delay p) :: trace l /\
  calls_made r = calls_made l /\
  last_info r = last_info l /\
  outcome r = outcome l.
Proof.
  intros Hinit. unfold main_with, range.
  rewrite time_sleep_nonneg by exact Hinit.
  repeat split.
Qed.

Lemma CheckResult_of_parts r :
  CheckResult_of r =
  match outcome r with
  | exit_json _ => Some (mkCheckResult true (calls_made r) (last_info r))
  | fail_json _ _ => Some (mkCheckResult false (calls_made r) (last_info r))
  | Uncaught _ => None
  end.
Proof. reflexivity. Qed.

(** The trace of every run has the shape of [schedule]. *)
Lemma main_with_trace evaluate p :
  valid_delays p ->
  trace (main_with evaluate p)
  = schedule (initial_delay p) (delay_between_tries p)
      (calls_made (main_with evaluate p)).
Proof.
  intros [Hinit Hdelay].
  destruct (main_with_loop evaluate p Hinit) as (Htr & Hcalls & _ & _).
  rewrite Htr, Hcalls. unfold schedule. f_equal.
  destruct (Z.to_nat (max_retries p)) as [| n].
  - reflexivity.
  - rewrite range_items.
    destruct (for_attempt_step evaluate (delay_between_tries p) Hdelay 0
                (map Z.of_nat (seq 1 n)) None "") as (Htr0 & Hcalls0 & _ & _).
    rewrite Htr0, Hcalls0. cbn [app]. f_equal.
    unfold after_call.
    destruct (evaluate 0%nat) as [[[|] info'] | e]; try reflexivity.
    apply trace_later_attempts; [exact Hdelay | lia].
Qed.

(** C3: with [max_retries = N >= 1] and N failing attempts, the run ends in
    [fail_json]: not succeeded, N attempts made, and the detail of the N-th
    attempt as the last detail (and in the message). *)
Theorem exhausted_reports_last_failure evaluate p (detail : nat -> string) :
  valid_delays p ->
  1 <= max_retries p ->
  (forall i, Z.of_nat i < max_retries p -> evaluate i = Return (false, detail i)) ->
  let N := Z.to_nat (max_retries p) in
  let r := main_with evaluate p in
  CheckResult_of r = Some (mkCheckResult false N (detail (N - 1)%nat)) /\
  outcome r = fail_json ("Maximum attempts reached: " ++ detail (N - 1)%nat)
                (max_retries p - 1).
Proof.
  intros [Hinit Hdelay] Hpos Hfail N r; subst N r.
  destruct (main_with_loop evaluate p Hinit) as (_ & Hcalls & Hinfo & Hout).
  rewrite CheckResult_of_parts, Hcalls, Hinfo, Hout.
  destruct (for_attempt_all_fail evaluate (delay_between_tries p) Hdelay detail
              (Z.to_nat (max_retries p)) 0 None "") as [Hn Hend].
  { intros i Hi. apply Hfail. lia. }
  destruct (Z.to_nat (max_retries p)) as [| n'] eqn:HN; [lia |].
  destruct Hend as [Hi Ho].
  rewrite Hn, Hi, Ho.
  replace (S n' - 1)%nat with n' by lia. cbn [Nat.add].
  replace (Z.of_nat n') with (max_retries p - 1) by lia.
  split; reflexivity.
Qed.

(** C4: when the [k]-th attempt (from 1) of [main] is the first one that
    succeeds, the run ends there through [exit_json]: succeeded, [k] attempts
    made, last detail ["OK"], and the trace holds the calls 0..k-1 and no
    other. *)
Theorem first_success_stops re_compile_error re_matches_at_start world p
    (k : nat) :
  valid_delays p ->
  (1 <= k)%nat ->
  Z.of_nat k <= max_retries p ->
  (forall i, (S i < k)%nat ->
     exists d, nth_check re_compile_error re_matches_at_start world p i
               = Return (false, d)) ->
  (exists d, nth_check re_compile_error re_matches_at_start world p (k - 1)%nat
             = Return (true, d)) ->
  let r := main re_compile_error re_matches_at_start world p in
  CheckResult_of r = Some (mkCheckResult true k "OK") /\
  outcome r = exit_json (Z.of_nat k - 1) /\
  trace r = schedule (initial_delay p) (delay_between_tries p) k.
Proof.
  intros Hvalid Hk Hle Hfail [d Hok] r; subst r.
  assert (Hd : d = "OK") by (eapply check_success_OK; exact Hok).
  subst d. unfold main.
  set (ev := nth_check re_compile_error re_matches_at_start world p) in *.
  pose proof (main_with_trace ev p Hvalid) as Htrace.
  destruct Hvalid as [Hinit Hdelay].
  destruct (main_with_loop ev p Hinit) as (_ & Hcalls & Hinfo & Hout).
  destruct k as [| k']; [lia |].
  replace (S k' - 1)%nat with k' in Hok by lia.
  destruct (for_attempt_first_success ev (delay_between_tries p)
              Hdelay k' (Z.to_nat (max_retries p)) 0 None "" "OK")
    as (Hn & Hi & Ho).
  { lia. }
  { intros i Hi. apply Hfail. lia. }
  { exact Hok. }
  cbn zeta in Hn, Hi, Ho. cbn [Nat.add] in Ho.
  rewrite Htrace, CheckResult_of_parts, Hcalls, Hinfo, Hout, Hn, Hi, Ho.
  replace (Z.of_nat (S k') - 1) with (Z.of_nat k') by lia.
  repeat split.
Qed.

(** C5: in every run with valid delays the trace is one sleep of
    [initial_delay], then call 0, then a sleep of [delay_between_tries]
    before each later call and nothing else; that first call is made as soon
    as [max_retries >= 1], and there are never more calls than
    [max_retries]. *)
Theorem delays_follow_schedule evaluate p :
  valid_delays p ->
  let r := main_with evaluate p in
  trace r = schedule (initial_delay p) (delay_between_tries p) (calls_made r) /\
  (calls_made r <= Z.to_nat (max_retries p))%nat /\
  (1 <= max_retries p -> (1 <= calls_made r)%nat).
Proof.
  intros Hvalid r; subst r.
  split; [apply main_with_trace; exact Hvalid |].
  destruct Hvalid as [Hinit Hdelay].
  destruct (main_with_loop evaluate p Hinit) as (_ & Hcalls & _ & _).
  rewrite Hcalls. split.
  - apply calls_made_bound. exact Hdelay.
  - intros Hpos.
    destruct (Z.to_nat (max_retries p)) as [| n] eqn:HN; [lia |].
    rewrite range_items.
    destruct (for_attempt_step evaluate (delay_between_tries p) Hdelay 0
                (map Z.of_nat (seq 1 n)) None "") as (_ & Hcalls0 & _ & _).
    rewrite Hcalls0. lia.
Qed.

(** C10: with [max_retries <= 0] the run sleeps [initial_delay], makes no
    call and no other sleep, and ends in the [UnboundLocalError] of the
    unassigned loop variable [attempt]: there is no [CheckResult]. *)
Theorem no_attempts_unbound_counter evaluate p :
  0 <= initial_delay p ->
  max_retries p <= 0 ->
  let r := main_with evaluate p in
  r = mkRun [Sleep (initial_delay p)] "" (Uncaught (UnboundLocalError "attempt")) /\
  calls_made r = 0%nat /\
  CheckResult_of r = None.
Proof.
  intros Hinit Hmax r; subst r.
  assert (Hrun : main_with evaluate p
                 = mkRun [Sleep (initial_delay p)] ""
                     (Uncaught (UnboundLocalError "attempt"))).
  { unfold main_with, range.
    rewrite time_sleep_nonneg by exact Hinit.
    replace (Z.to_nat (max_retries p)) with 0%nat by lia.
    reflexivity. }
  rewrite Hrun. repeat split.
Qed.

(** * Where the code departs from the specification *)

Section Divergences.

Variable re_compile_error : pattern_t -> option string.
Variable re_matches_at_start : bytes -> bytes -> bool.

Local Abbreviation check := (check_server_status re_compile_error re_matches_at_start).

(** C1: a server that answers 503 to a check that expects 503.  The response
    is raised by [urlopen] as [HTTPError] and handled like a transport fault:
    the attempt fails with the text of the exception, and the status is never
    compared with [expected_status]. *)
Theorem http_error_status_not_compared url headers timeout :
  urlopen (answering 503 "Service Unavailable" "down")
    (mkRequest url headers) timeout
  = Raise (HTTPError 503 "Service Unavailable") /\
  check (answering 503 "Service Unavailable" "down") url headers timeout 503 None
  = Return (false, "HTTP Error 503: Service Unavailable").
Proof. split; reflexivity. Qed.

(** C7: a server that answers 503 to a check that expects 200.  The detail
    of the failure is the text of the [HTTPError]: it names the actual code
    and not the expected one. *)
Theorem http_error_detail_omits_expected url headers timeout :
  check (answering 503 "Service Unavailable" "down") url headers timeout 200 None
  = Return (false, "HTTP Error 503: Service Unavailable") /\
  mentions (fmt_d 503) "HTTP Error 503: Service Unavailable" = true /\
  mentions (fmt_d 200) "HTTP Error 503: Service Unavailable" = false.
Proof. repeat split. Qed.

(** C2: with a non-empty [str] pattern and a response of the expected status
    200, [re.match] raises and nothing catches the exception: the call
    returns no outcome. *)
Theorem str_pattern_on_body_raises url headers timeout reason body c s :
  exists e,
    check (fun _ _ => Response 200 reason body) url headers timeout 200
      (Some (PStr (String c s)))
    = Raise e /\
    is_caught e = false.
Proof.
  unfold check_server_status, regexp_rejects, re_match.
  cbn [urlopen Z.leb Z.ltb Z.compare Pos.compare Pos.compare_cont andb
       getcode fp_code Z.eqb Pos.eqb negb truthy String.length Nat.eqb].
  destruct (re_compile_error (PStr (String c s))) as [msg |].
  - exists (re_error msg). split; reflexivity.
  - exists (TypeError "cannot use a string pattern on a bytes-like object").
    split; reflexivity.
Qed.

(** C6: the two bodies of the anchoring example, checked with the pattern
    ['ok'] as [main] passes it.  Neither call returns: the first is not the
    success and the second is not the body-mismatch failure that the
    specification describes. *)
Theorem anchoring_examples_raise url headers timeout :
  (exists e, check (answering 200 "OK" "okay, proceeding") url headers timeout
               200 (option_map PStr (Some example_regexp)) = Raise e) /\
  (exists e, check (answering 200 "OK" "not ok") url headers timeout
               200 (option_map PStr (Some example_regexp)) = Raise e).
Proof.
  unfold check_server_status, regexp_rejects, re_match, example_regexp.
  cbn [option_map answering urlopen Z.leb Z.ltb Z.compare Pos.compare
       Pos.compare_cont andb getcode fp_code Z.eqb Pos.eqb negb truthy
       String.length Nat.eqb read fp_body].
  destruct (re_compile_error (PStr "ok")) as [msg |];
    split; eexists; reflexivity.
Qed.

End Divergences.

(** * The theorems at concrete inputs *)

Lemma exhausted_reports_last_failure_witness :
  valid_delays (params_of 0 5 2) /\
  1 <= max_retries (params_of 0 5 2) /\
  CheckResult_of (main_with always_refused (params_of 0 5 2))
  = Some (mkCheckResult false 2 "connection refused") /\
  outcome (main_with always_refused (params_of 0 5 2))
  = fail_json "Maximum attempts reached: connection refused" 1.
Proof.
  split; [split; simpl; lia |].
  split; [simpl; lia |].
  apply (exhausted_reports_last_failure always_refused (params_of 0 5 2)
           (fun _ => "connection refused")).
  - split; simpl; lia.
  - simpl; lia.
  - intros i _. reflexivity.
Defined.

Lemma first_success_stops_witness :
  valid_delays (params_of 0 0 3) /\
  CheckResult_of (main every_pattern_compiles starts_with third_call_answers
                    (params_of 0 0 3))
  = Some (mkCheckResult true 3 "OK") /\
  outcome (main every_pattern_compiles starts_with third_call_answers
             (params_of 0 0 3))
  = exit_json 2 /\
  trace (main every_pattern_compiles starts_with third_call_answers
           (params_of 0 0 3))
  = [Sleep 0; Call 0; Sleep 0; Call 1; Sleep 0; Call 2].
Proof.
  split; [split; simpl; lia |].
  apply (first_success_stops every_pattern_compiles starts_with
           third_call_answers (params_of 0 0 3) 3).
  - split; simpl; lia.
  - lia.
  - simpl; lia.
  - intros i Hi.
    destruct i as [| [| i]]; [eexists; reflexivity | eexists; reflexivity | lia].
  - eexists; reflexivity.
Defined.

Lemma delays_follow_schedule_witness :
  valid_delays (params_of 3 5 1) /\
  trace (main_with always_refused (params_of 3 5 1)) = [Sleep 3; Call 0] /\
  (calls_made (main_with always_refused (params_of 3 5 1)) <= 1)%nat /\
  (1 <= max_retries (params_of 3 5 1) ->
   (1 <= calls_made (main_with always_refused (params_of 3 5 1)))%nat).
Proof.
  split; [split; simpl; lia |].
  apply (delays_follow_schedule always_refused (params_of 3 5 1)).
  split; simpl; lia.
Defined.

Lemma outcome_detail_invariant_witness :
  check_server_status every_pattern_compiles starts_with
    (answering 204 "No Content" "") example_url [] 10 200 None
  = Return (false, "Expected status 200, actual: 204") /\
  (false = true <-> "Expected status 200, actual: 204" = "OK").
Proof.
  split; [reflexivity |].
  apply (outcome_detail_invariant every_pattern_compiles starts_with
           (answering 204 "No Content" "") example_url [] 10 200 None
           false "Expected status 200, actual: 204").
  reflexivity.
Defined.

Lemma no_attempts_unbound_counter_witness :
  0 <= initial_delay (params_of 3 5 0) /\
  max_retries (params_of 3 5 0) <= 0 /\
  main_with always_refused (params_of 3 5 0)
  = mkRun [Sleep 3] "" (Uncaught (UnboundLocalError "attempt")) /\
  calls_made (main_with always_refused (params_of 3 5 0)) = 0%nat /\
  CheckResult_of (main_with always_refused (params_of 3 5 0)) = None.
Proof.
  split; [simpl; lia |].
  split; [simpl; lia |].
  apply (no_attempts_unbound_counter always_refused (params_of 3 5 0));
    simpl; lia.
Defined.

(** * Further properties of [check_server_status] *)

Section EvaluatorCases.

Variable re_compile_error : pattern_t -> option string.
Variable re_matches_at_start : bytes -> bytes -> bool.

Local Abbreviation rejects := (regexp_rejects re_compile_error re_matches_at_start).

(** The ways a call can go, read off the reply; [answered] is what follows
    a response of status [status] whose [read()] behaves as [body]. *)
Lemma check_by_reply net url headers timeout expected_status expected_regexp :
  check_server_status re_compile_error re_matches_at_start
    net url headers timeout expected_status expected_regexp
  = let answered status reason (body : result bytes) :=
      if (200 <=? status) && (status <? 300)
      then
        if negb (status =? expected_status)
        then Return (false, "Expected status " ++ fmt_d expected_status
                              ++ ", actual: " ++ fmt_d status)
        else
          content <- body ;;
          rejected <- rejects expected_regexp content ;;
          if rejected
          then Return (false, "Content did not match expected regexp.")
          else Return (true, "OK")
      else Return (false, "HTTP Error " ++ fmt_d status ++ ": " ++ reason) in
    match net (mkRequest url headers) timeout with
    | Refused msg => Raise (ValueError msg)
    | NoResponse f => Return (false, str (exn_of_fault f))
    | Malformed line => Raise (BadStatusLine line)
    | Response status reason body => answered status reason (Return body)
    | Interrupted status reason b =>
        answered status reason (Raise (exn_of_body_fault b))
    end.
Proof.
  unfold check_server_status, urlopen.
  destruct (net (mkRequest url headers) timeout)
    as [msg | f | line | status reason body | status reason b];
    try reflexivity.
  - destruct f; reflexivity.
  - destruct ((200 <=? status) && (status <? 300)); reflexivity.
  - destruct ((200 <=? status) && (status <? 300)); reflexivity.
Qed.

(** A pattern that is absent or empty is never given to [re.match]. *)
Lemma rejects_without_pattern expected_regexp content :
  truthy expected_regexp = false ->
  rejects expected_regexp content = Return false.
Proof.
  unfold regexp_rejects.
  destruct expected_regexp as [pattern |]; [| reflexivity].
  intros ->. reflexivity.
Qed.

(** A non-empty [str] pattern makes [re.match] raise on every body. *)
Lemma rejects_str_pattern c s content :
  exists e,
    rejects (Some (PStr (String c s))) content = Raise e /\
    is_caught e = false.
Proof.
  unfold regexp_rejects, re_match. cbn [truthy String.length Nat.eqb negb].
  destruct (re_compile_error (PStr (String c s))) as [msg |];
    eexists; split; reflexivity.
Qed.

(** A success comes from a 2xx response of the expected status whose body
    arrived and was not rejected. *)
Lemma check_success_inv net url headers timeout expected_status
    expected_regexp detail :
  check_server_status re_compile_error re_matches_at_start
    net url headers timeout expected_status expected_regexp
  = Return (true, detail) ->
  exists reason body,
    net (mkRequest url headers) timeout = Response expected_status reason body /\
    200 <= expected_status < 300 /\
    rejects expected_regexp body = Return false.
Proof.
  rewrite check_by_reply. cbv beta zeta.
  destruct (net (mkRequest url headers) timeout)
    as [msg | f | line | status reason body | status reason b];
    try discriminate;
    (destruct ((200 <=? status) && (status <? 300)) eqn:Hrange; [| discriminate]);
    (destruct (Z.eqb_spec status expected_status) as [-> | Hne]; cbn [negb];
     [| discriminate]);
    cbn [bind]; [| discriminate].
  destruct (rejects expected_regexp body) as [[|] | e] eqn:Hrej; cbn [bind];
    try discriminate.
  intros _. exists reason, body.
  apply andb_true_iff in Hrange.
  split; [reflexivity |]. split; [lia | exact Hrej].
Qed.

(** A success is only reported for a response whose status is the expected
    one and lies in 200..299; its detail is ["OK"]. *)
Theorem success_only_for_expected_2xx net url headers timeout expected_status
    expected_regexp detail :
  check_server_status re_compile_error re_matches_at_start
    net url headers timeout expected_status expected_regexp
  = Return (true, detail) ->
  detail = "OK" /\
  200 <= expected_status < 300 /\
  exists reason body,
    net (mkRequest url headers) timeout = Response expected_status reason body.
Proof.
  intros Hok.
  split; [eapply check_success_OK; exact Hok |].
  destruct (check_success_inv _ _ _ _ _ _ _ Hok)
    as (reason & body & Hnet & Hrange & _).
  split; [exact Hrange | exists reason, body; exact Hnet].
Qed.

(** Without a pattern ([None] or the empty string) the body is not looked
    at: a 2xx response of the expected status that arrived completely is a
    success whatever it carries. *)
Theorem no_pattern_ignores_body net url headers timeout expected_status
    expected_regexp reason body :
  truthy expected_regexp = false ->
  200 <= expected_status < 300 ->
  net (mkRequest url headers) timeout = Response expected_status reason body ->
  check_server_status re_compile_error re_matches_at_start
    net url headers timeout expected_status expected_regexp
  = Return (true, "OK").
Proof.
  intros Hfalsy Hrange Hnet. rewrite check_by_reply, Hnet. cbv beta zeta.
  replace ((200 <=? expected_status) && (expected_status <? 300)) with true
    by (symmetry; apply andb_true_iff; lia).
  rewrite Z.eqb_refl. cbn [negb bind].
  rewrite rejects_without_pattern by exact Hfalsy. reflexivity.
Qed.

(** When a response of the expected 2xx status arrives and its body does
    not arrive completely, [fp.read()] raises outside the [try]: the call
    raises [IncompleteRead] or the timeout, with or without a pattern. *)
Theorem interrupted_body_raises net url headers timeout expected_status
    expected_regexp reason b :
  200 <= expected_status < 300 ->
  net (mkRequest url headers) timeout = Interrupted expected_status reason b ->
  check_server_status re_compile_error re_matches_at_start
    net url headers timeout expected_status expected_regexp
  = Raise (exn_of_body_fault b).
Proof.
  intros Hrange Hnet. rewrite check_by_reply, Hnet. cbv beta zeta.
  replace ((200 <=? expected_status) && (expected_status <? 300)) with true
    by (symmetry; apply andb_true_iff; lia).
  rewrite Z.eqb_refl. reflexivity.
Qed.

(** With a non-empty [str] pattern, which is what the module passes, no call
    of [check_server_status] returns a success. *)
Theorem str_pattern_never_succeeds net url headers timeout expected_status
    c s success detail :
  check_server_status re_compile_error re_matches_at_start
    net url headers timeout expected_status (Some (PStr (String c s)))
  = Return (success, detail) ->
  success = false.
Proof.
  destruct success; [| reflexivity].
  intros Hok.
  destruct (check_success_inv _ _ _ _ _ _ _ Hok) as (reason & body & _ & _ & Hrej).
  destruct (rejects_str_pattern c s body) as (e & He & _).
  rewrite He in Hrej. discriminate Hrej.
Qed.

End EvaluatorCases.

(** * Further properties of the retry loop *)

Section LoopCases.

Variable evaluate : nat -> result (bool * string).
Variable delay : Z.

(** One pass of the loop body at attempt [c], for any delay: either the
    sleep before a later attempt raises, or the call is made. *)
Lemma for_attempt_step_any c rest attempt info :
  let r := for_attempt evaluate delay (Z.of_nat c :: rest) attempt info c in
  let k := after_call evaluate delay c rest info in
  (c <> 0%nat /\ delay < 0 /\
   r = mkRun [] info (Uncaught (ValueError "sleep length must be non-negative")))
  \/
  ((c = 0%nat \/ 0 <= delay) /\
   calls_made r = S (calls_made k) /\
   last_info r = last_info k /\
   outcome r = outcome k).
Proof.
  cbn [for_attempt]. fold (after_call evaluate delay c rest info).
  destruct c as [| c'].
  - right. repeat split. left; reflexivity.
  - replace (Z.of_nat (S c') =? 0) with false by (symmetry; apply Z.eqb_neq; lia).
    cbn [negb]. unfold time_sleep.
    destruct (Z.ltb_spec delay 0) as [Hneg | Hpos].
    + left. repeat split; [discriminate | exact Hneg].
    + right. repeat split. right; exact Hpos.
Qed.

(** A loop that leaves through [exit_json] made its last call at the
    reported attempt; that call succeeded and the ones before it failed. *)
Lemma for_attempt_exit_inv n : forall c attempt info a,
  let r := for_attempt evaluate delay (map Z.of_nat (seq c n)) attempt info c in
  outcome r = exit_json a ->
  exists k, (c <= k < c + n)%nat /\
    a = Z.of_nat k /\
    calls_made r = (S k - c)%nat /\
    evaluate k = Return (true, last_info r) /\
    forall i, (c <= i < k)%nat -> exists d, evaluate i = Return (false, d).
Proof.
  induction n as [| n IH]; intros c attempt info a r; subst r.
  - cbn. destruct attempt; discriminate.
  - rewrite range_items.
    destruct (for_attempt_step_any c (map Z.of_nat (seq (S c) n)) attempt info)
      as [(_ & _ & ->) | (_ & Hcalls & Hinfo & Hout)]; [discriminate |].
    rewrite Hcalls, Hinfo, Hout. unfold after_call.
    destruct (evaluate c) as [[[|] info'] | e] eqn:Hev; [| | discriminate].
    + intros H; cbn [outcome] in H; injection H as <-.
      exists c.
      split; [lia |]. split; [reflexivity |].
      split; [unfold calls_made; cbn [trace filter List.length]; lia |].
      split; [exact Hev |]. intros i Hi; lia.
    + intros Hexit.
      destruct (IH (S c) (Some (Z.of_nat c)) info' a Hexit)
        as (k & Hk & Ha & Hn & Hsucc & Hbefore).
      exists k. rewrite Hn.
      split; [lia |]. split; [exact Ha |]. split; [lia |].
      split; [exact Hsucc |].
      intros i Hi.
      destruct (Nat.eq_dec i c) as [-> | Hne]; [exists info'; exact Hev |].
      apply Hbefore; lia.
Qed.

(** A loop that leaves through [fail_json] made a call for every item, all
    of them failed, and it reports the last loop index and the last detail. *)
Lemma for_attempt_fail_inv n : forall c attempt info msg a,
  let r := for_attempt evaluate delay (map Z.of_nat (seq c n)) attempt info c in
  outcome r = fail_json msg a ->
  msg = "Maximum attempts reached: " ++ last_info r /\
  calls_made r = n /\
  (forall i, (c <= i < c + n)%nat -> exists d, evaluate i = Return (false, d)) /\
  match n with
  | O => attempt = Some a
  | S n' => a = Z.of_nat (c + n')
  end.
Proof.
  induction n as [| n IH]; intros c attempt info msg a r; subst r.
  - cbn. destruct attempt as [a0 |]; [| discriminate].
    cbn. intros H; injection H as <- <-.
    split; [reflexivity |]. split; [reflexivity |].
    split; [intros i Hi; lia | reflexivity].
  - rewrite range_items.
    destruct (for_attempt_step_any c (map Z.of_nat (seq (S c) n)) attempt info)
      as [(_ & _ & ->) | (_ & Hcalls & Hinfo & Hout)]; [discriminate |].
    rewrite Hcalls, Hinfo, Hout. unfold after_call.
    destruct (evaluate c) as [[[|] info'] | e] eqn:Hev; try discriminate.
    intros Hfail.
    destruct (IH (S c) (Some (Z.of_nat c)) info' msg a Hfail)
      as (Hmsg & Hn & Hall & Hlast).
    split; [exact Hmsg |]. split; [rewrite Hn; reflexivity |]. split.
    + intros i Hi.
      destruct (Nat.eq_dec i c) as [-> | Hne]; [exists info'; exact Hev |].
      apply Hall; lia.
    + destruct n as [| n'].
      * injection Hlast as <-. f_equal; lia.
      * rewrite Hlast. f_equal; lia.
Qed.

End LoopCases.

Lemma slept_later_attempts delay m : forall call,
  slept (later_attempts delay call m) = delay * Z.of_nat m.
Proof.
  induction m as [| m IH]; intros call.
  - cbn. lia.
  - cbn [later_attempts slept]. rewrite IH. lia.
Qed.

(** A run either stops at a negative [initial_delay] or is the loop after
    the initial sleep. *)
Lemma main_with_cases evaluate p :
  let r := main_with evaluate p in
  let l := for_attempt evaluate (delay_between_tries p)
             (map Z.of_nat (seq 0 (Z.to_nat (max_retries p)))) None "" 0 in
  (initial_delay p < 0 /\
   r = mkRun [] "" (Uncaught (ValueError "sleep length must be non-negative")))
  \/
  (0 <= initial_delay p /\
   calls_made r = calls_made l /\
   last_info r = last_info l /\
   outcome r = outcome l).
Proof.
  unfold main_with, range, time_sleep.
  destruct (Z.ltb_spec (initial_delay p) 0) as [Hneg | Hpos].
  - left. split; [exact Hneg | reflexivity].
  - right. repeat split. exact Hpos.
Qed.

(** A run in which no call of the evaluator succeeds does not leave through
    [exit_json]. *)
Lemma main_with_never_exits evaluate p a :
  (forall i d, evaluate i <> Return (true, d)) ->
  outcome (main_with evaluate p) <> exit_json a.
Proof.
  intros Hnever Hexit.
  destruct (main_with_cases evaluate p) as [[_ Hrun] | (_ & _ & _ & Hout)].
  - rewrite Hrun in Hexit. discriminate Hexit.
  - rewrite Hout in Hexit.
    destruct (for_attempt_exit_inv evaluate (delay_between_tries p) _ _ _ _ _ Hexit)
      as (k & _ & _ & _ & Hsucc & _).
    exact (Hnever k _ Hsucc).
Qed.

(** The number of calls of a run with valid delays. *)
Lemma main_with_calls_range evaluate p :
  valid_delays p ->
  (calls_made (main_with evaluate p) <= Z.to_nat (max_retries p))%nat /\
  (1 <= max_retries p -> (1 <= calls_made (main_with evaluate p))%nat).
Proof.
  intros [Hinit Hdelay].
  destruct (main_with_loop evaluate p Hinit) as (_ & Hcalls & _ & _).
  rewrite Hcalls. split.
  - apply calls_made_bound. exact Hdelay.
  - intros Hpos.
    destruct (Z.to_nat (max_retries p)) as [| n] eqn:HN; [lia |].
    rewrite range_items.
    destruct (for_attempt_step evaluate (delay_between_tries p) Hdelay 0
                (map Z.of_nat (seq 1 n)) None "") as (_ & Hcalls0 & _ & _).
    rewrite Hcalls0. lia.
Qed.

(** A run that reports success through [exit_json(failed_attempts=a)] made
    exactly [a + 1] calls within the budget: call [a] succeeded (its detail
    is the last [info]) and every call before it failed. *)
Theorem exit_report_sound evaluate p a :
  outcome (main_with evaluate p) = exit_json a ->
  exists k,
    a = Z.of_nat k /\
    Z.of_nat k < max_retries p /\
    calls_made (main_with evaluate p) = S k /\
    evaluate k = Return (true, last_info (main_with evaluate p)) /\
    forall i, (i < k)%nat -> exists d, evaluate i = Return (false, d).
Proof.
  intros Hexit.
  destruct (main_with_cases evaluate p) as [[_ Hrun] | (_ & Hcalls & Hinfo & Hout)].
  - rewrite Hrun in Hexit. discriminate Hexit.
  - rewrite Hout in Hexit. rewrite Hcalls, Hinfo.
    destruct (for_attempt_exit_inv evaluate (delay_between_tries p) _ _ _ _ _ Hexit)
      as (k & Hk & Ha & Hn & Hsucc & Hbefore).
    exists k.
    split; [exact Ha |]. split; [lia |]. split; [rewrite Hn; lia |].
    split; [exact Hsucc |].
    intros i Hi. apply Hbefore. lia.
Qed.

(** A run that gives up through [fail_json] made [max_retries] calls and all
    of them failed; the message carries the last detail, and the reported
    [failed_attempts] is the last loop index, [max_retries - 1]: one less
    than the number of failed attempts. *)
Theorem fail_report_sound evaluate p msg a :
  outcome (main_with evaluate p) = fail_json msg a ->
  a = max_retries p - 1 /\
  Z.of_nat (calls_made (main_with evaluate p)) = max_retries p /\
  msg = "Maximum attempts reached: " ++ last_info (main_with evaluate p) /\
  forall i, Z.of_nat i < max_retries p -> exists d, evaluate i = Return (false, d).
Proof.
  intros Hfail.
  destruct (main_with_cases evaluate p) as [[_ Hrun] | (_ & Hcalls & Hinfo & Hout)].
  - rewrite Hrun in Hfail. discriminate Hfail.
  - rewrite Hout in Hfail. rewrite Hcalls, Hinfo.
    destruct (for_attempt_fail_inv evaluate (delay_between_tries p) _ _ _ _ _ _ Hfail)
      as (Hmsg & Hn & Hall & Hlast).
    destruct (Z.to_nat (max_retries p)) as [| n'] eqn:HN; [discriminate Hlast |].
    rewrite Hn.
    split; [lia |]. split; [lia |]. split; [exact Hmsg |].
    intros i Hi. apply Hall. lia.
Qed.

(** A negative [initial_delay] ends the run in the [ValueError] of
    [time.sleep] before any call is made. *)
Theorem negative_initial_delay_aborts evaluate p :
  initial_delay p < 0 ->
  main_with evaluate p
  = mkRun [] "" (Uncaught (ValueError "sleep length must be non-negative")).
Proof.
  intros Hneg.
  destruct (main_with_cases evaluate p) as [[_ Hrun] | (Hpos & _)];
    [exact Hrun | lia].
Qed.

(** With a negative [delay_between_tries] a failed first attempt is not
    retried: the sleep before the second attempt raises [ValueError]. *)
Theorem negative_retry_delay_aborts evaluate p d :
  0 <= initial_delay p ->
  delay_between_tries p < 0 ->
  2 <= max_retries p ->
  evaluate 0%nat = Return (false, d) ->
  main_with evaluate p
  = mkRun [Sleep (initial_delay p); Call 0] d
      (Uncaught (ValueError "sleep length must be non-negative")).
Proof.
  intros Hinit Hdelay Hmax Hev.
  unfold main_with, range.
  rewrite time_sleep_nonneg by exact Hinit.
  destruct (Z.to_nat (max_retries p)) as [| [| n]] eqn:HN; [lia | lia |].
  rewrite range_items. cbn [for_attempt Z.of_nat Z.eqb negb].
  rewrite Hev. rewrite range_items. cbn [for_attempt].
  replace (Z.of_nat 1 =? 0) with false by reflexivity.
  cbn [negb]. unfold time_sleep.
  destruct (Z.ltb_spec (delay_between_tries p) 0); [reflexivity | lia].
Qed.

(** The time a run with valid delays spends sleeping is [initial_delay] plus
    one [delay_between_tries] for every call after the first, and so at most
    [initial_delay + (max_retries - 1) * delay_between_tries]. *)
Theorem total_sleep evaluate p :
  valid_delays p ->
  1 <= max_retries p ->
  let r := main_with evaluate p in
  slept (trace r)
  = initial_delay p + delay_between_tries p * (Z.of_nat (calls_made r) - 1) /\
  slept (trace r)
  <= initial_delay p + delay_between_tries p * (max_retries p - 1).
Proof.
  intros Hvalid Hpos r; subst r.
  destruct (main_with_calls_range evaluate p Hvalid) as [Hle Hge].
  specialize (Hge Hpos).
  rewrite (main_with_trace evaluate p Hvalid).
  destruct Hvalid as [Hinit Hdelay].
  destruct (calls_made (main_with evaluate p)) as [| m]; [lia |].
  cbn [schedule slept]. rewrite slept_later_attempts.
  split; [f_equal; f_equal; lia |].
  apply Z.add_le_mono_l, Z.mul_le_mono_nonneg_l; lia.
Qed.

(** * [main] with [check_server_status] as its evaluator *)

Section MainCases.

Variable re_compile_error : pattern_t -> option string.
Variable re_matches_at_start : bytes -> bytes -> bool.
Variable world : nat -> network.

Local Abbreviation nth := (nth_check re_compile_error re_matches_at_start world).

(** The module configured with a non-empty [expected_regexp] never reports
    success, whatever the servers answer: a call that reaches the body
    raises, and the others fail. *)
Theorem regexp_check_never_passes p c s a :
  expected_regexp p = Some (String c s) ->
  outcome (main re_compile_error re_matches_at_start world p) <> exit_json a.
Proof.
  intros Hre. unfold main. apply main_with_never_exits.
  intros i d Hok. unfold nth_check in Hok. rewrite Hre in Hok.
  cbn [option_map] in Hok.
  destruct (check_success_inv _ _ _ _ _ _ _ _ _ Hok)
    as (reason & body & _ & _ & Hrej).
  destruct (rejects_str_pattern re_compile_error re_matches_at_start c s body)
    as (e & He & _).
  rewrite He in Hrej. discriminate Hrej.
Qed.

(** The module configured with an [expected_status] outside 200..299 never
    reports success, whatever the servers answer. *)
Theorem non_2xx_expectation_never_passes p a :
  ~ (200 <= expected_status p < 300) ->
  outcome (main re_compile_error re_matches_at_start world p) <> exit_json a.
Proof.
  intros Hout. unfold main. apply main_with_never_exits.
  intros i d Hok. unfold nth_check in Hok.
  destruct (check_success_inv _ _ _ _ _ _ _ _ _ Hok) as (_ & _ & _ & Hrange & _).
  exact (Hout Hrange).
Qed.

(** When the first request is answered with the expected 2xx status and no
    pattern is configured, the run is the initial sleep and one call, and it
    reports zero failed attempts. *)
Theorem healthy_server_first_call p reason body :
  0 <= initial_delay p ->
  1 <= max_retries p ->
  expected_regexp p = None \/ expected_regexp p = Some "" ->
  200 <= expected_status p < 300 ->
  world 0%nat (mkRequest (url p) (or_empty (headers p))) (timeout p)
  = Response (expected_status p) reason body ->
  main re_compile_error re_matches_at_start world p = mkRun [Sleep (initial_delay p); Call 0] "OK" (exit_json 0).
Proof.
  intros Hinit Hmax Hre Hrange Hnet.
  assert (Hfirst : nth p 0%nat = Return (true, "OK")).
  { unfold nth_check. rewrite check_by_reply, Hnet. cbv beta zeta.
    replace ((200 <=? expected_status p) && (expected_status p <? 300))
      with true by (symmetry; apply andb_true_iff; lia).
    rewrite Z.eqb_refl. cbn [negb bind].
    rewrite rejects_without_pattern; [reflexivity |].
    destruct Hre as [-> | ->]; reflexivity. }
  unfold main, main_with, range.
  rewrite time_sleep_nonneg by exact Hinit.
  destruct (Z.to_nat (max_retries p)) as [| n] eqn:HN; [lia |].
  rewrite range_items. cbn [for_attempt Z.of_nat Z.eqb negb].
  rewrite Hfirst. reflexivity.
Qed.

(** When none of the [max_retries] requests gets a response, the run makes
    all its calls and gives up with the text of the last fault in the
    message, whatever pattern is configured. *)
Theorem server_down_exhausts p (f : nat -> fault) :
  valid_delays p ->
  1 <= max_retries p ->
  (forall i, Z.of_nat i < max_retries p ->
     world i (mkRequest (url p) (or_empty (headers p))) (timeout p)
     = NoResponse (f i)) ->
  let N := Z.to_nat (max_retries p) in
  outcome (main re_compile_error re_matches_at_start world p)
  = fail_json ("Maximum attempts reached: " ++ str (exn_of_fault (f (N - 1)%nat)))
      (max_retries p - 1) /\
  calls_made (main re_compile_error re_matches_at_start world p) = N.
Proof.
  intros [Hinit Hdelay] Hmax Hdown N; subst N. unfold main.
  destruct (main_with_loop (nth p) p Hinit) as (_ & Hcalls & _ & Hout).
  rewrite Hcalls, Hout.
  destruct (for_attempt_all_fail (nth p) (delay_between_tries p) Hdelay
              (fun i => str (exn_of_fault (f i)))
              (Z.to_nat (max_retries p)) 0 None "") as [Hn Hend].
  { intros i Hi. unfold nth_check. rewrite check_by_reply, Hdown by lia.
    reflexivity. }
  destruct (Z.to_nat (max_retries p)) as [| n'] eqn:HN; [lia |].
  destruct Hend as [_ Ho].
  rewrite Hn, Ho.
  replace (S n' - 1)%nat with n' by lia. cbn [Nat.add].
  replace (Z.of_nat n') with (max_retries p - 1) by lia.
  split; reflexivity.
Qed.

End MainCases.

(** * The further properties at concrete inputs *)


Lemma status_mismatch_2xx_detail_witness :
  answering 204 "No Content" "" (mkRequest example_url []) 10
  = Response 204 "No Content" [] /\
  200 <= 204 < 300 /\
  204 <> 200 /\
  check_server_status every_pattern_compiles starts_with
    (answering 204 "No Content" "") example_url [] 10 200 None
  = Return (false, "Expected status 200, actual: 204").
Proof.
  split; [reflexivity |]. split; [lia |]. split; [lia |].
  apply (status_mismatch_2xx_detail every_pattern_compiles starts_with
           (answering 204 "No Content" "") example_url [] 10 200 None
           204 "No Content" []);
    [reflexivity | lia | lia].
Defined.

Lemma success_only_for_expected_2xx_witness :
  check_server_status every_pattern_compiles starts_with
    (answering 201 "Created" "ok") example_url [] 10 201 None
  = Return (true, "OK") /\
  "OK" = "OK" /\
  200 <= 201 < 300 /\
  exists reason body,
    answering 201 "Created" "ok" (mkRequest example_url []) 10
    = Response 201 reason body.
Proof.
  split; [reflexivity |].
  apply (success_only_for_expected_2xx every_pattern_compiles starts_with
           (answering 201 "Created" "ok") example_url [] 10 201 None "OK").
  reflexivity.
Defined.

Lemma no_pattern_ignores_body_witness :
  truthy (Some (PStr "")) = false /\
  200 <= 200 < 300 /\
  check_server_status every_pattern_compiles starts_with
    (answering 200 "OK" "down for maintenance") example_url [] 10 200
    (Some (PStr ""))
  = Return (true, "OK").
Proof.
  split; [reflexivity |]. split; [lia |].
  apply (no_pattern_ignores_body every_pattern_compiles starts_with
           (answering 200 "OK" "down for maintenance") example_url [] 10 200
           (Some (PStr "")) "OK" (list_byte_of_string "down for maintenance"));
    [reflexivity | lia | reflexivity].
Defined.

Lemma interrupted_body_raises_witness :
  200 <= 200 < 300 /\
  check_server_status every_pattern_compiles starts_with
    (fun _ _ => Interrupted 200 "OK" (Truncated 2 (Some 14)))
    example_url [] 10 200 None
  = Raise (IncompleteRead 2 (Some 14)).
Proof.
  split; [lia |].
  apply (interrupted_body_raises every_pattern_compiles starts_with
           (fun _ _ => Interrupted 200 "OK" (Truncated 2 (Some 14)))
           example_url [] 10 200 None "OK" (Truncated 2 (Some 14)));
    [lia | reflexivity].
Defined.

Lemma str_pattern_never_succeeds_witness :
  check_server_status every_pattern_compiles starts_with
    (answering 404 "Not Found" "") example_url [] 10 200 (Some (PStr "ok"))
  = Return (false, "HTTP Error 404: Not Found") /\
  false = false.
Proof.
  split; [reflexivity |].
  apply (str_pattern_never_succeeds every_pattern_compiles starts_with
           (answering 404 "Not Found" "") example_url [] 10 200
           "o"%char "k" false "HTTP Error 404: Not Found").
  reflexivity.
Defined.

Lemma exit_report_sound_witness :
  outcome (main_with refused_then_ok (params_of 0 0 3)) = exit_json 2 /\
  exists k,
    2 = Z.of_nat k /\
    Z.of_nat k < max_retries (params_of 0 0 3) /\
    calls_made (main_with refused_then_ok (params_of 0 0 3)) = S k /\
    refused_then_ok k
    = Return (true, last_info (main_with refused_then_ok (params_of 0 0 3))) /\
    forall i, (i < k)%nat -> exists d, refused_then_ok i = Return (false, d).
Proof.
  split; [reflexivity |].
  apply (exit_report_sound refused_then_ok (params_of 0 0 3) 2).
  reflexivity.
Defined.

Lemma fail_report_sound_witness :
  outcome (main_with always_refused (params_of 0 5 2))
  = fail_json "Maximum attempts reached: connection refused" 1 /\
  1 = max_retries (params_of 0 5 2) - 1 /\
  Z.of_nat (calls_made (main_with always_refused (params_of 0 5 2)))
  = max_retries (params_of 0 5 2) /\
  "Maximum attempts reached: connection refused"
  = "Maximum attempts reached: "
      ++ last_info (main_with always_refused (params_of 0 5 2)) /\
  forall i, Z.of_nat i < max_retries (params_of 0 5 2) ->
            exists d, always_refused i = Return (false, d).
Proof.
  split; [reflexivity |].
  apply (fail_report_sound always_refused (params_of 0 5 2)
           "Maximum attempts reached: connection refused" 1).
  reflexivity.
Defined.

Lemma negative_initial_delay_aborts_witness :
  initial_delay (params_of (-1) 5 3) < 0 /\
  main_with always_refused (params_of (-1) 5 3)
  = mkRun [] "" (Uncaught (ValueError "sleep length must be non-negative")).
Proof.
  split; [simpl; lia |].
  apply (negative_initial_delay_aborts always_refused (params_of (-1) 5 3)).
  simpl; lia.
Defined.

Lemma negative_retry_delay_aborts_witness :
  0 <= initial_delay (params_of 0 (-1) 3) /\
  delay_between_tries (params_of 0 (-1) 3) < 0 /\
  2 <= max_retries (params_of 0 (-1) 3) /\
  main_with always_refused (params_of 0 (-1) 3)
  = mkRun [Sleep 0; Call 0] "connection refused"
      (Uncaught (ValueError "sleep length must be non-negative")).
Proof.
  split; [simpl; lia |]. split; [simpl; lia |]. split; [simpl; lia |].
  apply (negative_retry_delay_aborts always_refused (params_of 0 (-1) 3)
           "connection refused");
    [simpl; lia | simpl; lia | simpl; lia | reflexivity].
Defined.

Lemma total_sleep_witness :
  valid_delays (params_of 2 5 3) /\
  1 <= max_retries (params_of 2 5 3) /\
  slept (trace (main_with always_refused (params_of 2 5 3))) = 12 /\
  slept (trace (main_with always_refused (params_of 2 5 3))) <= 12.
Proof.
  split; [split; simpl; lia |]. split; [simpl; lia |].
  apply (total_sleep always_refused (params_of 2 5 3));
    [split; simpl; lia | simpl; lia].
Defined.

Lemma regexp_check_never_passes_witness :
  expected_regexp params_with_regexp = Some "ok" /\
  outcome (main every_pattern_compiles starts_with
             (fun _ => answering 200 "OK" "okay, proceeding")
             params_with_regexp)
  <> exit_json 0.
Proof.
  split; [reflexivity |].
  apply (regexp_check_never_passes every_pattern_compiles starts_with
           (fun _ => answering 200 "OK" "okay, proceeding")
           params_with_regexp "o"%char "k" 0).
  reflexivity.
Defined.

Lemma non_2xx_expectation_never_passes_witness :
  ~ (200 <= expected_status params_expecting_503 < 300) /\
  outcome (main every_pattern_compiles starts_with
             (fun _ => answering 503 "Service Unavailable" "")
             params_expecting_503)
  <> exit_json 0.
Proof.
  split; [simpl; lia |].
  apply (non_2xx_expectation_never_passes every_pattern_compiles starts_with
           (fun _ => answering 503 "Service Unavailable" "")
           params_expecting_503 0).
  simpl; lia.
Defined.

Lemma healthy_server_first_call_witness :
  0 <= initial_delay (params_of 2 5 10) /\
  1 <= max_retries (params_of 2 5 10) /\
  200 <= expected_status (params_of 2 5 10) < 300 /\
  main every_pattern_compiles starts_with (fun _ => answering 200 "OK" "up")
    (params_of 2 5 10)
  = mkRun [Sleep 2; Call 0] "OK" (exit_json 0).
Proof.
  split; [simpl; lia |]. split; [simpl; lia |]. split; [simpl; lia |].
  apply (healthy_server_first_call every_pattern_compiles starts_with
           (fun _ => answering 200 "OK" "up") (params_of 2 5 10)
           "OK" (list_byte_of_string "up"));
    [simpl; lia | simpl; lia | left; reflexivity | simpl; lia | reflexivity].
Defined.

Lemma server_down_exhausts_witness :
  valid_delays (params_of 0 5 2) /\
  1 <= max_retries (params_of 0 5 2) /\
  outcome (main every_pattern_compiles starts_with always_down (params_of 0 5 2))
  = fail_json
      "Maximum attempts reached: <urlopen error [Errno 111] Connection refused>"
      1 /\
  calls_made (main every_pattern_compiles starts_with always_down
                (params_of 0 5 2)) = 2%nat.
Proof.
  split; [split; simpl; lia |]. split; [simpl; lia |].
  apply (server_down_exhausts every_pattern_compiles starts_with always_down
           (params_of 0 5 2)
           (fun _ => Unreachable "[Errno 111] Connection refused"));
    [split; simpl; lia | simpl; lia | intros i _; reflexivity].
Defined.
